(** * The InChI API header of go-chem ([3rd/inchi_api.h])

    The header is a list of declarations: object-like macros, integer type
    aliases, six structures and six function prototypes.  It has no
    function bodies.  The development below carries

    - the declarations themselves, as data ([Module C] is the small
      declaration language, [Module Header] the contents of the file in
      source order), and
    - the values the declared structures range over ([Module Atom],
      [Module Stereo0D]), with fixed-size arrays as vectors;

    and states the properties of the interface over them. *)

From Stdlib Require Import ZArith Floats.PrimFloat Ascii.
From stdpp Require Import base decidable option list vector strings gmap.

Local Open Scope string_scope.
Local Open Scope Z_scope.

(** ** The declaration language *)

Module C.

Inductive sign := Signed | Unsigned.
Inductive ikind := IChar | IShort | IInt | ILong.

(** Constant expressions as they occur in array declarators:
    [20], [ATOM_EL_LEN], [NUM_H_ISOTOPES+1]. *)
Inductive cexpr :=
| Lit (n : Z)
| Mac (name : string)
| Plus (a b : cexpr).

Inductive ctype :=
| Tvoid
| Tchar                               (* plain [char] *)
| Tint (s : sign) (k : ikind)
| Tdouble
| Tname (n : string)                  (* a typedef name *)
| Tstruct (tag : string)
| Tptr (t : ctype)
| Tarr (t : ctype) (n : cexpr)
| Tconst (t : ctype).

(** [#define name value /* comment */] *)
Record define := Define {
  d_name : string;
  d_value : Z;
  d_comment : option string
}.

(** [typedef type name; /* comment */] *)
Record typedef := Typedef {
  t_type : ctype;
  t_name : string;
  t_comment : option string
}.

Record field := Field {
  f_type : ctype;
  f_name : string;
  f_comment : option string
}.

(** [typedef struct tag { fields } name;] *)
Record struct_decl := Struct {
  s_tag : string;
  s_fields : list field;
  s_name : string
}.

Record param := Param {
  p_type : ctype;
  p_name : string
}.

Record prototype := Proto {
  fn_ret : ctype;
  fn_name : string;
  fn_params : list param
}.

#[global] Instance sign_eq_dec : EqDecision sign.
Proof. solve_decision. Defined.
#[global] Instance ikind_eq_dec : EqDecision ikind.
Proof. solve_decision. Defined.
#[global] Instance cexpr_eq_dec : EqDecision cexpr.
Proof. solve_decision. Defined.
#[global] Instance ctype_eq_dec : EqDecision ctype.
Proof. solve_decision. Defined.
#[global] Instance define_eq_dec : EqDecision define.
Proof. solve_decision. Defined.

(** *** Macros *)

Definition lookup_define (ds : list define) (name : string) : option Z :=
  d_value <$> List.find (λ d, bool_decide (d_name d = name)) ds.

Fixpoint eval (ds : list define) (e : cexpr) : option Z :=
  match e with
  | Lit n => Some n
  | Mac name => lookup_define ds name
  | Plus a b =>
      match eval ds a, eval ds b with
      | Some x, Some y => Some (x + y)
      | _, _ => None
      end
  end.

Definition values (ds : list define) : list Z := d_value <$> ds.
Definition names (ds : list define) : list string := d_name <$> ds.
Definition comments (ds : list define) : list (option string) :=
  d_comment <$> ds.
Definition bindings (ds : list define) : list (string * Z) :=
  (λ d, (d_name d, d_value d)) <$> ds.

(** *** Declarators *)

(** The dimensions of an array type, outermost first: [T a[2][3]] has
    dimensions [2; 3]; a type that is no array has none. *)
Fixpoint dims (ds : list define) (t : ctype) : list (option Z) :=
  match t with
  | Tarr t' n => eval ds n :: dims ds t'
  | _ => []
  end.

Fixpoint elem_type (t : ctype) : ctype :=
  match t with
  | Tarr t' _ => elem_type t'
  | _ => t
  end.

Definition lookup_field (s : struct_decl) (name : string) : option ctype :=
  f_type <$> List.find (λ f, bool_decide (f_name f = name)) (s_fields s).

Definition field_names (s : struct_decl) : list string :=
  f_name <$> s_fields s.

(** The members of a structure, in declaration order. *)
Definition members (s : struct_decl) : list (string * ctype) :=
  (λ f, (f_name f, f_type f)) <$> s_fields s.

(** The number of entries of the (one-dimensional) array field [name]. *)
Definition array_length (ds : list define) (s : struct_decl)
    (name : string) : option Z :=
  match lookup_field s name with
  | Some (Tarr _ n) => eval ds n
  | _ => None
  end.

End C.

(** ** The contents of [inchi_api.h], in source order *)

Import C.

(** *** InChI limits *)

Definition ATOM_EL_LEN : Z := 6.
Definition NUM_H_ISOTOPES : Z := 3.
Definition ISOTOPIC_SHIFT_FLAG : Z := 10000.
Definition ISOTOPIC_SHIFT_MAX : Z := 100.

(** *** Bond types *)

Definition INCHI_BOND_TYPE_NONE : Z := 0.
Definition INCHI_BOND_TYPE_SINGLE : Z := 1.
Definition INCHI_BOND_TYPE_DOUBLE : Z := 2.
Definition INCHI_BOND_TYPE_TRIPLE : Z := 3.
Definition INCHI_BOND_TYPE_ALTERN : Z := 4.

(** *** Bond stereo *)

Definition INCHI_BOND_STEREO_NONE : Z := 0.
Definition INCHI_BOND_STEREO_SINGLE_1UP : Z := 1.
Definition INCHI_BOND_STEREO_SINGLE_1DOWN : Z := 6.
Definition INCHI_BOND_STEREO_SINGLE_2UP : Z := 4.
Definition INCHI_BOND_STEREO_SINGLE_2DOWN : Z := 5.
Definition INCHI_BOND_STEREO_SINGLE_1EITHER : Z := 2.
Definition INCHI_BOND_STEREO_SINGLE_2EITHER : Z := 3.
Definition INCHI_BOND_STEREO_DOUBLE_EITHER : Z := 7.

(** *** Stereo parity *)

Definition INCHI_PARITY_NONE : Z := 0.
Definition INCHI_PARITY_ODD : Z := 1.
Definition INCHI_PARITY_EVEN : Z := 2.
Definition INCHI_PARITY_UNKNOWN : Z := 3.
Definition INCHI_PARITY_UNDEFINED : Z := 4.

(** *** Stereo types *)

Definition INCHI_StereoType_None : Z := 0.
Definition INCHI_StereoType_DoubleBond : Z := 1.
Definition INCHI_StereoType_Tetrahedral : Z := 2.
Definition INCHI_StereoType_Allene : Z := 3.

(** *** Return codes *)

Definition inchi_Ret_OKAY : Z := 0.
Definition inchi_Ret_WARNING : Z := 1.
Definition inchi_Ret_ERROR : Z := 2.
Definition inchi_Ret_FATAL : Z := 3.
Definition inchi_Ret_UNKNOWN : Z := 4.
Definition inchi_Ret_BUSY : Z := 5.
Definition inchi_Ret_EOF : Z := 6.

(** *** InChIKey return codes *)

Definition INCHIKEY_OK : Z := 0.
Definition INCHIKEY_UNKNOWN_ERROR : Z := 1.
Definition INCHIKEY_EMPTY_INPUT : Z := 2.
Definition INCHIKEY_INVALID_INCHI_PREFIX : Z := 3.
Definition INCHIKEY_NOT_ENOUGH_MEMORY : Z := 4.
Definition INCHIKEY_INVALID_INCHI : Z := 5.
Definition INCHIKEY_INVALID_STD_INCHI : Z := 6.

Module Header.

(** The [#define] lines, one table per comment-headed group of the
    header, each in the order of the file. *)

Definition limits : list define :=
  [ Define "ATOM_EL_LEN" ATOM_EL_LEN (Some "chemical element length");
    Define "NUM_H_ISOTOPES" NUM_H_ISOTOPES
      (Some "number of hydrogen isotopes: 1H, 2H(D), 3H(T)");
    Define "ISOTOPIC_SHIFT_FLAG" ISOTOPIC_SHIFT_FLAG
      (Some "isotopic shift flag");
    Define "ISOTOPIC_SHIFT_MAX" ISOTOPIC_SHIFT_MAX
      (Some "isotopic shift max value") ].

Definition bond_types : list define :=
  [ Define "INCHI_BOND_TYPE_NONE" INCHI_BOND_TYPE_NONE None;
    Define "INCHI_BOND_TYPE_SINGLE" INCHI_BOND_TYPE_SINGLE None;
    Define "INCHI_BOND_TYPE_DOUBLE" INCHI_BOND_TYPE_DOUBLE None;
    Define "INCHI_BOND_TYPE_TRIPLE" INCHI_BOND_TYPE_TRIPLE None;
    Define "INCHI_BOND_TYPE_ALTERN" INCHI_BOND_TYPE_ALTERN
      (Some "aromatic") ].

Definition bond_stereos : list define :=
  [ Define "INCHI_BOND_STEREO_NONE" INCHI_BOND_STEREO_NONE None;
    Define "INCHI_BOND_STEREO_SINGLE_1UP" INCHI_BOND_STEREO_SINGLE_1UP None;
    Define "INCHI_BOND_STEREO_SINGLE_1DOWN"
      INCHI_BOND_STEREO_SINGLE_1DOWN None;
    Define "INCHI_BOND_STEREO_SINGLE_2UP" INCHI_BOND_STEREO_SINGLE_2UP None;
    Define "INCHI_BOND_STEREO_SINGLE_2DOWN"
      INCHI_BOND_STEREO_SINGLE_2DOWN None;
    Define "INCHI_BOND_STEREO_SINGLE_1EITHER"
      INCHI_BOND_STEREO_SINGLE_1EITHER None;
    Define "INCHI_BOND_STEREO_SINGLE_2EITHER"
      INCHI_BOND_STEREO_SINGLE_2EITHER None;
    Define "INCHI_BOND_STEREO_DOUBLE_EITHER"
      INCHI_BOND_STEREO_DOUBLE_EITHER None ].

Definition parities : list define :=
  [ Define "INCHI_PARITY_NONE" INCHI_PARITY_NONE None;
    Define "INCHI_PARITY_ODD" INCHI_PARITY_ODD None;
    Define "INCHI_PARITY_EVEN" INCHI_PARITY_EVEN None;
    Define "INCHI_PARITY_UNKNOWN" INCHI_PARITY_UNKNOWN None;
    Define "INCHI_PARITY_UNDEFINED" INCHI_PARITY_UNDEFINED None ].

Definition stereo_types : list define :=
  [ Define "INCHI_StereoType_None" INCHI_StereoType_None None;
    Define "INCHI_StereoType_DoubleBond" INCHI_StereoType_DoubleBond None;
    Define "INCHI_StereoType_Tetrahedral" INCHI_StereoType_Tetrahedral None;
    Define "INCHI_StereoType_Allene" INCHI_StereoType_Allene None ].

Definition return_codes : list define :=
  [ Define "inchi_Ret_OKAY" inchi_Ret_OKAY (Some "Success");
    Define "inchi_Ret_WARNING" inchi_Ret_WARNING
      (Some "Success with warnings");
    Define "inchi_Ret_ERROR" inchi_Ret_ERROR (Some "Error");
    Define "inchi_Ret_FATAL" inchi_Ret_FATAL (Some "Severe error");
    Define "inchi_Ret_UNKNOWN" inchi_Ret_UNKNOWN (Some "Unknown error");
    Define "inchi_Ret_BUSY" inchi_Ret_BUSY
      (Some "Previous call has not returned yet");
    Define "inchi_Ret_EOF" inchi_Ret_EOF
      (Some "No structural data has been provided") ].

Definition inchikey_return_codes : list define :=
  [ Define "INCHIKEY_OK" INCHIKEY_OK None;
    Define "INCHIKEY_UNKNOWN_ERROR" INCHIKEY_UNKNOWN_ERROR None;
    Define "INCHIKEY_EMPTY_INPUT" INCHIKEY_EMPTY_INPUT None;
    Define "INCHIKEY_INVALID_INCHI_PREFIX"
      INCHIKEY_INVALID_INCHI_PREFIX None;
    Define "INCHIKEY_NOT_ENOUGH_MEMORY" INCHIKEY_NOT_ENOUGH_MEMORY None;
    Define "INCHIKEY_INVALID_INCHI" INCHIKEY_INVALID_INCHI None;
    Define "INCHIKEY_INVALID_STD_INCHI" INCHIKEY_INVALID_STD_INCHI None ].

(** Every integer macro of the file. *)
Definition defines : list define :=
  limits ++ bond_types ++ bond_stereos ++ parities ++ stereo_types
    ++ return_codes ++ inchikey_return_codes.

(** Basic types *)
Definition typedefs : list typedef :=
  [ Typedef (Tint Signed IShort) "AT_NUM" (Some "atom number");
    Typedef (Tint Unsigned IShort) "NUM_H"
      (Some "number of hydrogen atoms");
    Typedef (Tint Signed IChar) "S_CHAR" (Some "signed char");
    Typedef (Tint Unsigned IChar) "U_CHAR" (Some "unsigned char");
    Typedef (Tint Signed IShort) "S_SHORT" (Some "signed short");
    Typedef (Tint Unsigned IShort) "U_SHORT" (Some "unsigned short") ].

Definition AT_NUM : ctype := Tname "AT_NUM".
Definition S_CHAR : ctype := Tname "S_CHAR".

(** Atom structure *)
Definition tagInchiAtom : struct_decl :=
  Struct "tagInchiAtom"
    [ Field (Tarr Tchar (Mac "ATOM_EL_LEN")) "elname" (Some "element name");
      Field Tdouble "x" (Some "x coordinate");
      Field Tdouble "y" (Some "y coordinate");
      Field Tdouble "z" (Some "z coordinate");
      Field (Tarr AT_NUM (Lit 20)) "neighbor"
        (Some "neighbor atom numbers (0-based)");
      Field (Tarr AT_NUM (Lit 20)) "bond_type" (Some "bond types");
      Field (Tarr S_CHAR (Lit 20)) "bond_stereo" (Some "bond stereo");
      Field AT_NUM "num_bonds" (Some "number of bonds");
      Field (Tarr S_CHAR (Plus (Mac "NUM_H_ISOTOPES") (Lit 1))) "num_iso_H"
        (Some "number of implicit H atoms");
      Field S_CHAR "isotopic_mass" (Some "isotopic mass shift");
      Field S_CHAR "radical" (Some "radical");
      Field S_CHAR "charge" (Some "charge") ]
    "inchi_Atom".

(** Stereo structure *)
Definition tagINCHIStereo0D : struct_decl :=
  Struct "tagINCHIStereo0D"
    [ Field (Tarr AT_NUM (Lit 4)) "neighbor" (Some "atoms");
      Field AT_NUM "central_atom" (Some "central atom (for tetrahedral)");
      Field S_CHAR "type" (Some "stereo type");
      Field S_CHAR "parity" (Some "parity") ]
    "inchi_Stereo0D".

(** Input structure *)
Definition tagINCHI_Input : struct_decl :=
  Struct "tagINCHI_Input"
    [ Field (Tptr (Tname "inchi_Atom")) "atom" (Some "array of atoms");
      Field (Tptr (Tname "inchi_Stereo0D")) "stereo0D"
        (Some "array of stereo elements");
      Field (Tptr Tchar) "szOptions" (Some "options string");
      Field AT_NUM "num_atoms" (Some "number of atoms");
      Field AT_NUM "num_stereo0D" (Some "number of stereo elements") ]
    "inchi_Input".

(** Output structure *)
Definition tagINCHI_Output : struct_decl :=
  Struct "tagINCHI_Output"
    [ Field (Tptr Tchar) "szInChI" (Some "InChI string");
      Field (Tptr Tchar) "szAuxInfo" (Some "Auxiliary information");
      Field (Tptr Tchar) "szMessage" (Some "Messages");
      Field (Tptr Tchar) "szLog" (Some "Log output") ]
    "inchi_Output".

(** Input InChI structure (for parsing) *)
Definition tagINCHI_InputINCHI : struct_decl :=
  Struct "tagINCHI_InputINCHI"
    [ Field (Tptr Tchar) "szInChI" (Some "InChI string");
      Field (Tptr Tchar) "szOptions" (Some "Options") ]
    "inchi_InputINCHI".

(** Output structure from InChI *)
Definition tagINCHI_OutputStruct : struct_decl :=
  Struct "tagINCHI_OutputStruct"
    [ Field (Tptr (Tname "inchi_Atom")) "atom" (Some "array of atoms");
      Field (Tptr (Tname "inchi_Stereo0D")) "stereo0D"
        (Some "array of stereo elements");
      Field AT_NUM "num_atoms" (Some "number of atoms");
      Field AT_NUM "num_stereo0D" (Some "number of stereo elements");
      Field (Tptr Tchar) "szMessage" (Some "Messages");
      Field (Tptr Tchar) "szLog" (Some "Log output");
      Field (Tarr (Tarr (Tint Unsigned ILong) (Lit 2)) (Lit 2))
        "WarningFlags" (Some "warning flags") ]
    "inchi_OutputStruct".

Definition structs : list struct_decl :=
  [ tagInchiAtom; tagINCHIStereo0D; tagINCHI_Input; tagINCHI_Output;
    tagINCHI_InputINCHI; tagINCHI_OutputStruct ].

(** Each structure is declared as [typedef struct tag { ... } name;]. *)
Definition struct_typedefs : list typedef :=
  (λ s, Typedef (Tstruct (s_tag s)) (s_name s) None) <$> structs.

Definition plain (t : ctype) : bool :=
  match t with
  | Tptr _ | Tconst _ | Tname _ | Tarr _ _ => false
  | _ => true
  end.

(** Function prototypes.  [INCHI_API] expands to nothing, or to an
    import attribute on Windows, and is not part of the type. *)

Definition GetINCHI : prototype :=
  Proto (Tint Signed IInt) "GetINCHI"
    [ Param (Tptr (Tname "inchi_Input")) "inp";
      Param (Tptr (Tname "inchi_Output")) "out" ].

Definition FreeINCHI : prototype :=
  Proto Tvoid "FreeINCHI" [ Param (Tptr (Tname "inchi_Output")) "out" ].

Definition GetStructFromINCHI : prototype :=
  Proto (Tint Signed IInt) "GetStructFromINCHI"
    [ Param (Tptr (Tname "inchi_InputINCHI")) "inp";
      Param (Tptr (Tname "inchi_OutputStruct")) "out" ].

Definition FreeStructFromINCHI : prototype :=
  Proto Tvoid "FreeStructFromINCHI"
    [ Param (Tptr (Tname "inchi_OutputStruct")) "out" ].

Definition GetINCHIKeyFromINCHI : prototype :=
  Proto (Tint Signed IInt) "GetINCHIKeyFromINCHI"
    [ Param (Tptr (Tconst Tchar)) "szINCHISource";
      Param (Tconst (Tint Signed IInt)) "xtra1";
      Param (Tconst (Tint Signed IInt)) "xtra2";
      Param (Tptr Tchar) "szINCHIKey";
      Param (Tptr Tchar) "szXtra1";
      Param (Tptr Tchar) "szXtra2" ].

Definition GetINCHI_Version : prototype :=
  Proto (Tptr (Tconst Tchar)) "GetINCHI_Version" [].

Definition prototypes : list prototype :=
  [ GetINCHI; FreeINCHI; GetStructFromINCHI; FreeStructFromINCHI;
    GetINCHIKeyFromINCHI; GetINCHI_Version ].

End Header.

(** ** Values of the declared structures

    A fixed-size array [T a[n]] is a vector of [n] entries, an integer
    field its value in [Z], a [char] one character, a [double] a binary64
    float.  The declared widths ([signed short], [signed char]) bound the
    integer fields; the statements below hold for all integers and do not
    use the bounds. *)

Module Atom.

Record inchi_Atom := {
  elname : vec ascii (Z.to_nat ATOM_EL_LEN);
  x : float;
  y : float;
  z : float;
  neighbor : vec Z 20;
  bond_type : vec Z 20;
  bond_stereo : vec Z 20;
  num_bonds : Z;
  num_iso_H : vec Z (Z.to_nat (NUM_H_ISOTOPES + 1));
  isotopic_mass : Z;
  radical : Z;
  charge : Z
}.

(** One bond of an atom: the entries at one index of the three arrays. *)
Record bond := Bond {
  b_neighbor : Z;
  b_type : Z;
  b_stereo : Z
}.

(** The three arrays read side by side, index by index. *)
Definition bond_slots (a : inchi_Atom) : list bond :=
  zip_with (λ n ts, Bond n ts.1 ts.2)
    (vec_to_list (neighbor a))
    (zip (vec_to_list (bond_type a)) (vec_to_list (bond_stereo a))).

(** Modelled from the spec: the code that reads an atom record (the
    native library and the binding) is not in the header.  The spec has
    the three arrays as one bounded sequence whose length field is
    [num_bonds]: the bonds of an atom are its first [num_bonds] slots. *)
Definition bonds (a : inchi_Atom) : list bond :=
  take (Z.to_nat (num_bonds a)) (bond_slots a).

End Atom.

Module Stereo0D.

Record inchi_Stereo0D := {
  neighbor : vec Z 4;
  central_atom : Z;
  type : Z;
  parity : Z
}.

Definition to_tuple (s : inchi_Stereo0D) : vec Z 4 * Z * Z * Z :=
  (neighbor s, central_atom s, type s, parity s).

Definition of_tuple (t : vec Z 4 * Z * Z * Z) : inchi_Stereo0D :=
  let '(n, c, ty, p) := t in
  {| neighbor := n; central_atom := c; type := ty; parity := p |}.

End Stereo0D.

Abbreviation inchi_Atom := Atom.inchi_Atom.
Abbreviation inchi_Stereo0D := Stereo0D.inchi_Stereo0D.

(** ** Calls through a prototype

    The functions are declared only; their bodies are in the native
    library.  What a callee that reaches its arguments through the
    declared parameter types may do to them is fixed by those types: an
    argument passed by value is the callee's own copy, an object behind a
    pointer to [const] can be read only, an object behind a pointer to a
    non-[const] type can be overwritten.

    This is the reading of the declared types, not a property C
    enforces: the argument objects are taken to be pairwise disjoint,
    and a callee that casts [const] away is outside it.  Only the
    writable case, which holds of every C callee, is used to state a
    property of a function of the header. *)

Module Call.

Inductive access := ByValue | ReadOnly | ReadWrite.

#[global] Instance access_eq_dec : EqDecision access.
Proof. solve_decision. Defined.

Definition is_const (t : ctype) : bool :=
  match t with
  | Tconst _ => true
  | _ => false
  end.

Definition strip_const (t : ctype) : ctype :=
  match t with
  | Tconst t' => t'
  | _ => t
  end.

(** No typedef of the header hides a pointer or a qualifier (see
    [typedefs_plain] below), so the declared type of a parameter shows
    its access as it stands. *)
Definition param_access (t : ctype) : access :=
  match strip_const t with
  | Tptr t' => if is_const t' then ReadOnly else ReadWrite
  | _ => ByValue
  end.

(** A parameter is declared [const] when the parameter itself or the
    object it points to is. *)
Definition declared_const (t : ctype) : bool :=
  match t with
  | Tconst _ => true
  | Tptr t' => is_const t'
  | _ => false
  end.

Definition accesses (p : prototype) : list (string * access) :=
  (λ prm, (p_name prm, param_access (p_type prm))) <$> fn_params p.

Definition writable (p : prototype) : list string :=
  (filter (λ na, na.2 = ReadWrite) (accesses p)).*1.

Section call.
(** The objects handed to a call, one per parameter and in parameter
    order: the value of a by-value argument, the object pointed to for
    a pointer argument. *)
Context {obj : Type}.

(** A callee computes a return value and the contents it leaves in
    the objects it was handed. *)
Definition callee : Type := list obj → Z * list obj.

Definition write_back (p : prototype) (old new : list obj) : list obj :=
  imap (λ i o,
      match fn_params p !! i, new !! i with
      | Some prm, Some o' =>
          match param_access (p_type prm) with
          | ReadWrite => o'
          | _ => o
          end
      | _, _ => o
      end) old.

(** The caller's view of a call: it sees the return value, and the
    callee's stores only where the parameter type lets it store. *)
Definition call (p : prototype) (f : callee) (args : list obj)
    : Z * list obj :=
  let '(r, out) := f args in (r, write_back p args out).
End call.

End Call.

(** ** The key derivation call *)

Module Native.

(** What a derivation yields: the status code and the three strings for
    the three buffers. *)
Record derived := Derived {
  status : Z;
  key : string;
  extra1 : string;
  extra2 : string
}.

Section key.
(** The derivation itself (the hashing of the identifier) is the native
    library's and outside the spec: it is a parameter.  It is given the
    source string, if the source pointer names an object, and the two
    flags. *)
Context (derive : option string → Z → Z → derived).

(** Modelled from the spec: the body of [GetINCHIKeyFromINCHI] is in the
    native library; the header has its prototype only.  The spec has the
    call as the identifier-to-key derivation returning a status code and
    writing into caller-supplied fixed buffers.  The parameters are
    those of the prototype, in its order.  Objects live in the store of
    the caller and a pointer is the address of one, so two parameters
    can name the same object; the two flags are passed by value. *)
Definition GetINCHIKeyFromINCHI (m : gmap Z string)
    (szINCHISource : Z) (xtra1 xtra2 : Z)
    (szINCHIKey szXtra1 szXtra2 : Z) : Z * gmap Z string :=
  let r := derive (m !! szINCHISource) xtra1 xtra2 in
  (status r,
   <[szXtra2 := extra2 r]>
     (<[szXtra1 := extra1 r]> (<[szINCHIKey := key r]> m))).
End key.

End Native.

(** ** The header as one sequence of declarations

    The file declares, in this order: the integer aliases (lines 29-34),
    the integer macros (37-88), the structures (91-146) and the
    functions (149-171).  It includes no other file. *)

Module Scope.

Inductive decl :=
| DTypedef (td : typedef)
| DDefine (d : define)
| DStruct (s : struct_decl)
| DProto (p : prototype).

Definition header : list decl :=
  (DTypedef <$> Header.typedefs) ++ (DDefine <$> Header.defines)
    ++ (DStruct <$> Header.structs) ++ (DProto <$> Header.prototypes).

(** The typedef names a type mentions. *)
Fixpoint type_names (t : ctype) : list string :=
  match t with
  | Tname n => [n]
  | Tptr t' | Tconst t' | Tarr t' _ => type_names t'
  | _ => []
  end.

Fixpoint expr_macros (e : cexpr) : list string :=
  match e with
  | Lit _ => []
  | Mac n => [n]
  | Plus a b => expr_macros a ++ expr_macros b
  end.

(** The macros the array bounds of a type mention. *)
Fixpoint type_macros (t : ctype) : list string :=
  match t with
  | Tarr t' n => expr_macros n ++ type_macros t'
  | Tptr t' | Tconst t' => type_macros t'
  | _ => []
  end.

(** The types written in a declaration. *)
Definition decl_types (d : decl) : list ctype :=
  match d with
  | DTypedef td => [t_type td]
  | DDefine _ => []
  | DStruct s => f_type <$> s_fields s
  | DProto p => fn_ret p :: (p_type <$> fn_params p)
  end.

Definition uses_names (d : decl) : list string :=
  decl_types d ≫= type_names.

Definition uses_macros (d : decl) : list string :=
  decl_types d ≫= type_macros.

(** The type name a declaration introduces: the alias of a [typedef],
    the name after the closing brace of a [typedef struct]. *)
Definition declares_names (d : decl) : list string :=
  match d with
  | DTypedef td => [t_name td]
  | DStruct s => [s_name s]
  | _ => []
  end.

Definition declares_macros (d : decl) : list string :=
  match d with
  | DDefine df => [d_name df]
  | _ => []
  end.

(** One pass over the declarations, top to bottom, with the type names
    and macros seen so far. *)
Fixpoint well_scoped (names macros : list string) (ds : list decl) : bool :=
  match ds with
  | [] => true
  | d :: rest =>
      forallb (λ n, bool_decide (n ∈ names)) (uses_names d)
      && forallb (λ m, bool_decide (m ∈ macros)) (uses_macros d)
      && well_scoped (declares_names d ++ names)
           (declares_macros d ++ macros) rest
  end.

#[global] Instance param_eq_dec : EqDecision param.
Proof. solve_decision. Defined.
#[global] Instance prototype_eq_dec : EqDecision prototype.
Proof. solve_decision. Defined.

(** The parameter named [out] of a function. *)
Definition out_param (p : prototype) : option param :=
  List.find (λ prm, bool_decide (p_name prm = "out")) (fn_params p).

End Scope.

(** ** The file with its preprocessor conditionals

    Besides the integer macros the header defines two macros without a
    value: the include guard [__INCHI_API_H__] and the attribute
    [INCHI_API], the latter on three [#define] lines in the branches of
    two nested conditionals.  Which lines are active depends on the
    macros defined when the file is read. *)

Module Cpp.

Inductive cond :=
| CDefined (name : string)
| COr (a b : cond)
| CNot (a : cond).

#[local] Unset Elimination Schemes.
Inductive line :=
| LDefine (name : string) (body : list string)  (* a macro without a value *)
| LLinkage (opening : bool)                     (* extern C, opened or closed *)
| LDecl (d : Scope.decl)
| LIf (c : cond) (th el : list line).
#[local] Set Elimination Schemes.

(** A macro is defined at a point of the file when it was defined before
    the file is read ([before]) or by an active line above that point
    ([above]). *)
Fixpoint eval_cond (before : string → bool) (above : list string)
    (c : cond) : bool :=
  match c with
  | CDefined n => bool_decide (n ∈ above) || before n
  | COr a b => eval_cond before above a || eval_cond before above b
  | CNot a => negb (eval_cond before above a)
  end.

Definition line_macros (l : line) : list string :=
  match l with
  | LDefine n _ => [n]
  | LDecl d => Scope.declares_macros d
  | _ => []
  end.

(** The type and function names a line declares. *)
Definition line_names (l : line) : list string :=
  match l with
  | LDecl (Scope.DProto p) => [fn_name p]
  | LDecl d => Scope.declares_names d
  | _ => []
  end.

(** The lines of [l] that are active, in order; a [#define] counts for
    the conditionals below it. *)
Fixpoint active (before : string → bool) (l : line) (above : list string)
    : list line :=
  match l with
  | LIf c th el =>
      (fix go (ls : list line) (above : list string) : list line :=
         match ls with
         | [] => []
         | l' :: rest =>
             let a := active before l' above in
             (a ++ go rest ((a ≫= line_macros) ++ above))%list
         end) (if eval_cond before above c then th else el) above
  | _ => [l]
  end.

Definition active_list (before : string → bool)
    : list line → list string → list line :=
  fix go (ls : list line) (above : list string) : list line :=
    match ls with
    | [] => []
    | l' :: rest =>
        let a := active before l' above in
        (a ++ go rest ((a ≫= line_macros) ++ above))%list
    end.

(** The macro names the conditionals of a line ask about. *)
Fixpoint cond_names (c : cond) : list string :=
  match c with
  | CDefined n => [n]
  | COr a b => (cond_names a ++ cond_names b)%list
  | CNot a => cond_names a
  end.

Fixpoint reads (l : line) : list string :=
  match l with
  | LIf c th el =>
      (cond_names c
       ++ (fix go (ls : list line) : list string :=
             match ls with
             | [] => []
             | l' :: rest => reads l' ++ go rest
             end) th
       ++ (fix go (ls : list line) : list string :=
             match ls with
             | [] => []
             | l' :: rest => reads l' ++ go rest
             end) el)%list
  | _ => []
  end.

Definition reads_list : list line → list string :=
  fix go (ls : list line) : list string :=
    match ls with
    | [] => []
    | l' :: rest => (reads l' ++ go rest)%list
    end.

(** The whole file: [#ifndef __INCHI_API_H__] ... [#endif]. *)
Definition inchi_api_h : line :=
  LIf (CNot (CDefined "__INCHI_API_H__"))
    ([ LDefine "__INCHI_API_H__" [];
       LIf (CDefined "__cplusplus") [LLinkage true] [];
       LIf (CDefined "_WIN32")
         [ LIf (COr (COr (CDefined "_USRDLL") (CDefined "_WINDLL"))
                  (CDefined "_INCHI_DLL_"))
             [ LDefine "INCHI_API" ["__declspec"; "("; "dllimport"; ")"] ]
             [ LDefine "INCHI_API" [] ] ]
         [ LDefine "INCHI_API" [] ] ]
     ++ (LDecl <$> Scope.header)
     ++ [ LIf (CDefined "__cplusplus") [LLinkage false] [] ])
    [].

(** The macro names, and the type and function names, that reading the
    file once adds. *)
Definition defined_macros (before : string → bool) : list string :=
  active before inchi_api_h [] ≫= line_macros.

Definition declared_names (before : string → bool) : list string :=
  active before inchi_api_h [] ≫= line_names.

(** The macros defined before the file, as far as the file asks: its
    conditionals mention six names. *)
Definition oracle (guard cplusplus win32 usrdll windll inchi_dll : bool)
    : string → bool :=
  λ n, if bool_decide (n = "__INCHI_API_H__") then guard
       else if bool_decide (n = "__cplusplus") then cplusplus
       else if bool_decide (n = "_WIN32") then win32
       else if bool_decide (n = "_USRDLL") then usrdll
       else if bool_decide (n = "_WINDLL") then windll
       else if bool_decide (n = "_INCHI_DLL_") then inchi_dll
       else false.

(** The macros defined once the file has been read. *)
Definition after (before : string → bool) : string → bool :=
  λ n, bool_decide (n ∈ defined_macros before) || before n.

End Cpp.

(** ** Integer ranges

    The header fixes the integer type of every member, not its width.
    [conforming] is what C requires of the widths on every
    implementation; ranges are those of two's complement. *)

Module Abi.

Record widths := Widths {
  char_bits : Z;
  short_bits : Z;
  int_bits : Z;
  long_bits : Z
}.

Definition conforming (w : widths) : Prop :=
  8 ≤ char_bits w ∧ 16 ≤ short_bits w ∧ 16 ≤ int_bits w ∧ 32 ≤ long_bits w
  ∧ char_bits w ≤ short_bits w ∧ short_bits w ≤ int_bits w
  ∧ int_bits w ≤ long_bits w.

Definition lp64 : widths := Widths 8 16 32 64.
Definition llp64 : widths := Widths 8 16 32 32.

Definition bits (w : widths) (k : ikind) : Z :=
  match k with
  | IChar => char_bits w
  | IShort => short_bits w
  | IInt => int_bits w
  | ILong => long_bits w
  end.

Definition int_min (s : sign) (n : Z) : Z :=
  match s with
  | Signed => - 2 ^ (n - 1)
  | Unsigned => 0
  end.

Definition int_max (s : sign) (n : Z) : Z :=
  match s with
  | Signed => 2 ^ (n - 1) - 1
  | Unsigned => 2 ^ n - 1
  end.

Definition representable (w : widths) (s : sign) (k : ikind) (v : Z) : Prop :=
  int_min s (bits w k) ≤ v ≤ int_max s (bits w k).

Definition lookup_typedef (tds : list typedef) (n : string) : option ctype :=
  t_type <$> List.find (λ td, bool_decide (t_name td = n)) tds.

(** The integer type behind a scalar type: the type itself, or the one
    an alias of the header stands for (no alias of the header stands for
    another alias). *)
Definition int_type (t : ctype) : option (sign * ikind) :=
  match t with
  | Tint s k => Some (s, k)
  | Tname n =>
      match lookup_typedef Header.typedefs n with
      | Some (Tint s k) => Some (s, k)
      | _ => None
      end
  | _ => None
  end.

(** An object of type [t], or an entry of it when [t] is an array, can
    hold the integer [v]. *)
Definition holds (w : widths) (t : ctype) (v : Z) : Prop :=
  match int_type (elem_type t) with
  | Some (s, k) => representable w s k v
  | None => False
  end.

Definition member_holds (w : widths) (s : struct_decl) (name : string)
    (v : Z) : Prop :=
  match lookup_field s name with
  | Some t => holds w t v
  | None => False
  end.

End Abi.

(** ** Sample values *)

Import Header.

(** An atom with two bonds; the third slot holds left-over data that is
    not a bond. *)
Definition two_bond_atom : inchi_Atom :=
  {| Atom.elname :=
       list_to_vec (String.list_ascii_of_string "C" ++ replicate 5 zero);
     Atom.x := 0%float; Atom.y := 0%float; Atom.z := 0%float;
     Atom.neighbor := list_to_vec ([1; 2; 7] ++ replicate 17 0);
     Atom.bond_type :=
       list_to_vec ([INCHI_BOND_TYPE_SINGLE; INCHI_BOND_TYPE_DOUBLE; 9]
                      ++ replicate 17 0);
     Atom.bond_stereo := list_to_vec (replicate 20 INCHI_BOND_STEREO_NONE);
     Atom.num_bonds := 2;
     Atom.num_iso_H := list_to_vec (replicate 4 0);
     Atom.isotopic_mass := 0; Atom.radical := 0; Atom.charge := 0 |}.

(** * Properties of the interface *)

(** ** Sanity of the tables *)

(** No macro name is defined twice, so a lookup by name is unambiguous. *)
Lemma defines_NoDup : NoDup (names defines).
Proof. apply (bool_decide_unpack (NoDup (names defines))). vm_compute. exact I. Qed.

Lemma lookup_define_bindings name v :
  (name, v) ∈ bindings defines ↔ lookup_define defines name = Some v.
Proof.
  split.
  - intros Hin. unfold bindings, defines in Hin. cbn in Hin.
    repeat (apply elem_of_cons in Hin as [Heq | Hin];
            [inversion Heq; subst; reflexivity |]).
    by apply elem_of_nil in Hin.
  - unfold lookup_define. intros Hl.
    destruct (List.find _ defines) as [d|] eqn:Hf; [|discriminate].
    apply find_some in Hf as [Hin Hn]. apply bool_decide_eq_true in Hn.
    cbn in Hl. inversion Hl; subst. unfold bindings.
    apply list_elem_of_fmap. exists d. split; [reflexivity |].
    by apply list_elem_of_In.
Qed.

(** No structure declares a member name twice, so a member lookup by name
    is unambiguous. *)
Lemma field_names_NoDup : Forall (λ s, NoDup (field_names s)) structs.
Proof. apply (bool_decide_unpack _). vm_compute. exact I. Qed.

(** The typedefs of the header name integer and structure types only:
    none of them is a pointer, a qualified type, an array or another
    typedef name. *)
Lemma typedefs_plain :
  Forall (λ td, plain (t_type td) = true) (typedefs ++ struct_typedefs).
Proof. repeat constructor. Qed.

(** ** Numeric constants *)

(** [v ∈ l ↔ 0 ≤ v < n] for a table [l] of numerals: from left to right
    by going through the table, from right to left by going through the
    [n] values. *)
Ltac table_range n :=
  let v := fresh "v" in
  let Hv := fresh "Hv" in
  let Hs := fresh "Hs" in
  intros v; split; intros Hv;
  [ repeat (apply elem_of_cons in Hv as [-> | Hv]; [vm_compute; by intuition |]);
    by apply elem_of_nil in Hv
  | assert (Hs : v ∈ seqZ 0 n) by (apply elem_of_seqZ; lia);
    clear Hv; cbv in Hs;
    repeat (apply elem_of_cons in Hs as [-> | Hs]; [compute_done |]);
    by apply elem_of_nil in Hs ].

(** C5: the five bond-type constants are, in the order of the header,
    INCHI_BOND_TYPE_NONE = 0, SINGLE = 1, DOUBLE = 2, TRIPLE = 3 and
    ALTERN = 4, the last one commented as aromatic; their values are
    exactly the integers 0 through 4. *)
Theorem bond_type_values :
  bindings bond_types =
    [ ("INCHI_BOND_TYPE_NONE", 0); ("INCHI_BOND_TYPE_SINGLE", 1);
      ("INCHI_BOND_TYPE_DOUBLE", 2); ("INCHI_BOND_TYPE_TRIPLE", 3);
      ("INCHI_BOND_TYPE_ALTERN", 4) ]
  ∧ d_comment <$> last bond_types = Some (Some "aromatic")
  ∧ length bond_types = 5%nat
  ∧ ∀ v, v ∈ values bond_types ↔ 0 ≤ v ≤ 4.
Proof.
  split_and!; [reflexivity | reflexivity | reflexivity |].
  table_range 5.
Qed.

(** C2: the seven return codes of structure conversion are the
    consecutive integers 0 to 6 in the order of the header: OKAY
    (success) = 0, WARNING (success with warnings) = 1, ERROR = 2, FATAL
    (severe error) = 3, UNKNOWN (unknown error) = 4, BUSY (the previous
    call has not returned yet) = 5, EOF (no structural data has been
    provided) = 6. *)
Theorem return_codes_consecutive :
  bindings return_codes =
    [ ("inchi_Ret_OKAY", 0); ("inchi_Ret_WARNING", 1);
      ("inchi_Ret_ERROR", 2); ("inchi_Ret_FATAL", 3);
      ("inchi_Ret_UNKNOWN", 4); ("inchi_Ret_BUSY", 5);
      ("inchi_Ret_EOF", 6) ]
  ∧ comments return_codes =
    [ Some "Success"; Some "Success with warnings"; Some "Error";
      Some "Severe error"; Some "Unknown error";
      Some "Previous call has not returned yet";
      Some "No structural data has been provided" ]
  ∧ values return_codes = seqZ 0 7
  ∧ ∀ i d, return_codes !! i = Some d → d_value d = Z.of_nat i.
Proof.
  split_and!; [reflexivity | reflexivity | reflexivity |].
  intros i d Hd.
  do 7 (destruct i as [|i]; [by inversion Hd |]).
  inversion Hd.
Qed.

(** C3: the seven return codes of InChIKey derivation are the
    consecutive integers 0 to 6 in the order of the header: OK = 0,
    UNKNOWN_ERROR = 1, EMPTY_INPUT = 2, INVALID_INCHI_PREFIX = 3,
    NOT_ENOUGH_MEMORY = 4, INVALID_INCHI = 5, INVALID_STD_INCHI = 6. *)
Theorem inchikey_return_codes_consecutive :
  bindings inchikey_return_codes =
    [ ("INCHIKEY_OK", 0); ("INCHIKEY_UNKNOWN_ERROR", 1);
      ("INCHIKEY_EMPTY_INPUT", 2); ("INCHIKEY_INVALID_INCHI_PREFIX", 3);
      ("INCHIKEY_NOT_ENOUGH_MEMORY", 4); ("INCHIKEY_INVALID_INCHI", 5);
      ("INCHIKEY_INVALID_STD_INCHI", 6) ]
  ∧ values inchikey_return_codes = seqZ 0 7
  ∧ ∀ i d, inchikey_return_codes !! i = Some d → d_value d = Z.of_nat i.
Proof.
  split_and!; [reflexivity | reflexivity |].
  intros i d Hd.
  do 7 (destruct i as [|i]; [by inversion Hd |]).
  inversion Hd.
Qed.

(** C4: the values of the eight bond-stereo constants are exactly the
    integers 0 to 7, those of the five parity constants exactly 0 to 4,
    those of the four stereo-type constants exactly 0 to 3, and within
    each family no value is used twice. *)
Theorem stereo_code_sets :
  (length bond_stereos = 8%nat
   ∧ NoDup (values bond_stereos)
   ∧ ∀ v, v ∈ values bond_stereos ↔ 0 ≤ v ≤ 7)
  ∧ (length parities = 5%nat
     ∧ NoDup (values parities)
     ∧ ∀ v, v ∈ values parities ↔ 0 ≤ v ≤ 4)
  ∧ (length stereo_types = 4%nat
     ∧ NoDup (values stereo_types)
     ∧ ∀ v, v ∈ values stereo_types ↔ 0 ≤ v ≤ 3).
Proof.
  split_and!; try reflexivity; try compute_done.
  - table_range 8.
  - table_range 5.
  - table_range 4.
Qed.

(** ** The atom record *)

Section atom.
Import Atom.
Implicit Types (a b : inchi_Atom) (i : nat).

Lemma bond_slots_length a : length (bond_slots a) = 20%nat.
Proof.
  unfold bond_slots.
  rewrite length_zip_with, length_zip_with, !length_vec_to_list. reflexivity.
Qed.

(** Slot [i] holds entry [i] of each of the three arrays. *)
Lemma bond_slots_lookup a i n t s :
  bond_slots a !! i = Some (Bond n t s) ↔
    vec_to_list (neighbor a) !! i = Some n
    ∧ vec_to_list (bond_type a) !! i = Some t
    ∧ vec_to_list (bond_stereo a) !! i = Some s.
Proof.
  unfold bond_slots. rewrite lookup_zip_with_Some. split.
  - intros (n' & [t' s'] & Heq & Hn & Hts).
    apply lookup_zip_with_Some in Hts as (? & ? & ? & Ht & Hs).
    by simplify_eq/=.
  - intros (Hn & Ht & Hs). exists n, (t, s). split_and!; [done | done |].
    apply lookup_zip_with_Some. by exists t, s.
Qed.

Lemma bonds_lookup a i :
  bonds a !! i =
    if decide (Z.of_nat i < num_bonds a) then bond_slots a !! i else None.
Proof.
  unfold bonds. rewrite lookup_take.
  repeat case_decide; try reflexivity; lia.
Qed.

Lemma bonds_length a :
  length (bonds a) = Z.to_nat (Z.min (Z.max 0 (num_bonds a)) 20).
Proof. unfold bonds. rewrite length_take, bond_slots_length. lia. Qed.

(** Two atoms with the same bond count and the same entries below it have
    the same bonds, whatever the remaining entries hold. *)
Lemma bonds_ext a b :
  num_bonds a = num_bonds b →
  (∀ i, Z.of_nat i < num_bonds a →
     vec_to_list (neighbor a) !! i = vec_to_list (neighbor b) !! i
     ∧ vec_to_list (bond_type a) !! i = vec_to_list (bond_type b) !! i
     ∧ vec_to_list (bond_stereo a) !! i = vec_to_list (bond_stereo b) !! i) →
  bonds a = bonds b.
Proof.
  intros Hnum Hsame. apply list_eq. intros i.
  rewrite !bonds_lookup, <- Hnum. case_decide as Hi; [|reflexivity].
  destruct (Hsame i Hi) as (Hn & Ht & Hs).
  apply option_eq. intros [n t s]. by rewrite !bond_slots_lookup, Hn, Ht, Hs.
Qed.

End atom.

(** C1: in [inchi_Atom] the element-name buffer has [ATOM_EL_LEN] = 6
    entries and the arrays [neighbor], [bond_type] and [bond_stereo] have
    20 entries each.  The three are parallel: bond number [i] of an atom
    is made of entry [i] of each array, and it is a bond of the atom
    exactly when [i] is below [num_bonds]; the entries from index
    [num_bonds] on have no effect on the bonds of the atom. *)
Theorem inchi_Atom_arrays :
  ATOM_EL_LEN = 6
  ∧ array_length defines tagInchiAtom "elname" = Some ATOM_EL_LEN
  ∧ array_length defines tagInchiAtom "neighbor" = Some 20
  ∧ array_length defines tagInchiAtom "bond_type" = Some 20
  ∧ array_length defines tagInchiAtom "bond_stereo" = Some 20
  ∧ ∀ a : inchi_Atom,
      length (vec_to_list (Atom.elname a)) = 6%nat
      ∧ length (vec_to_list (Atom.neighbor a)) = 20%nat
      ∧ length (vec_to_list (Atom.bond_type a)) = 20%nat
      ∧ length (vec_to_list (Atom.bond_stereo a)) = 20%nat
      ∧ (∀ i n t s,
           Atom.bonds a !! i = Some (Atom.Bond n t s) ↔
             Z.of_nat i < Atom.num_bonds a
             ∧ vec_to_list (Atom.neighbor a) !! i = Some n
             ∧ vec_to_list (Atom.bond_type a) !! i = Some t
             ∧ vec_to_list (Atom.bond_stereo a) !! i = Some s)
      ∧ (∀ b : inchi_Atom,
           Atom.num_bonds b = Atom.num_bonds a →
           (∀ i, Z.of_nat i < Atom.num_bonds a →
              vec_to_list (Atom.neighbor b) !! i
                = vec_to_list (Atom.neighbor a) !! i
              ∧ vec_to_list (Atom.bond_type b) !! i
                = vec_to_list (Atom.bond_type a) !! i
              ∧ vec_to_list (Atom.bond_stereo b) !! i
                = vec_to_list (Atom.bond_stereo a) !! i) →
           Atom.bonds b = Atom.bonds a).
Proof.
  split_and!; try reflexivity.
  intros a. split_and!; try apply length_vec_to_list.
  - intros i n t s. rewrite bonds_lookup. case_decide as Hi.
    + rewrite bond_slots_lookup. tauto.
    + split; [discriminate | tauto].
  - intros b Hnum Hsame. apply bonds_ext; [done |].
    intros i Hi. apply Hsame. by rewrite <- Hnum.
Qed.

(** Only the first two slots of [two_bond_atom] are bonds. *)
Example two_bond_atom_bonds :
  Atom.bonds two_bond_atom = [Atom.Bond 1 1 0; Atom.Bond 2 2 0].
Proof. reflexivity. Qed.

(** C8: the array [num_iso_H] of [inchi_Atom] is declared with
    [NUM_H_ISOTOPES+1] entries, which is 4: one entry more than the
    number of hydrogen isotopes (3: 1H, 2H, 3H).  Its indices are 0 and,
    besides, one index per isotope, 1 to [NUM_H_ISOTOPES]. *)
Theorem num_iso_H_entries :
  lookup_field tagInchiAtom "num_iso_H"
    = Some (Tarr S_CHAR (Plus (Mac "NUM_H_ISOTOPES") (Lit 1)))
  ∧ lookup_define defines "NUM_H_ISOTOPES" = Some 3
  ∧ (Define "NUM_H_ISOTOPES" NUM_H_ISOTOPES
       (Some "number of hydrogen isotopes: 1H, 2H(D), 3H(T)")) ∈ defines
  ∧ array_length defines tagInchiAtom "num_iso_H" = Some (NUM_H_ISOTOPES + 1)
  ∧ NUM_H_ISOTOPES + 1 = 4
  ∧ ∀ a : inchi_Atom,
      length (vec_to_list (Atom.num_iso_H a)) = 4%nat
      ∧ length (vec_to_list (Atom.num_iso_H a))
        = (1 + Z.to_nat NUM_H_ISOTOPES)%nat
      ∧ ∀ i : nat,
          is_Some (vec_to_list (Atom.num_iso_H a) !! i) ↔
            i = 0%nat ∨ 1 ≤ Z.of_nat i ≤ NUM_H_ISOTOPES.
Proof.
  split_and!; try reflexivity.
  - compute_done.
  - intros a. split_and!; try apply length_vec_to_list.
    intros i. rewrite lookup_lt_is_Some, length_vec_to_list.
    unfold NUM_H_ISOTOPES. cbn. lia.
Qed.

(** ** The stereo descriptor *)

(** C6: [inchi_Stereo0D] has exactly four members: the array [neighbor]
    of four atom numbers, the atom number [central_atom], and the two
    signed characters [type] and [parity]; a value of the record is
    these four components and nothing else. *)
Theorem inchi_Stereo0D_members :
  members tagINCHIStereo0D =
    [ ("neighbor", Tarr AT_NUM (Lit 4)); ("central_atom", AT_NUM);
      ("type", S_CHAR); ("parity", S_CHAR) ]
  ∧ length (s_fields tagINCHIStereo0D) = 4%nat
  ∧ array_length defines tagINCHIStereo0D "neighbor" = Some 4
  ∧ (∀ s : inchi_Stereo0D,
       length (vec_to_list (Stereo0D.neighbor s)) = 4%nat
       ∧ Stereo0D.of_tuple (Stereo0D.to_tuple s) = s)
  ∧ (∀ t, Stereo0D.to_tuple (Stereo0D.of_tuple t) = t).
Proof.
  split_and!; try reflexivity.
  - intros s. split; [apply length_vec_to_list | by destruct s].
  - by intros [[[n c] ty] p].
Qed.

(** ** The structure returned by [GetStructFromINCHI] *)

(** C10: [inchi_OutputStruct] has seven members: the atom and stereo
    arrays, their two counts, the message and log strings and, last, the
    2-by-2 array [WarningFlags] of [unsigned long]. *)
Theorem inchi_OutputStruct_members :
  members tagINCHI_OutputStruct =
    [ ("atom", Tptr (Tname "inchi_Atom"));
      ("stereo0D", Tptr (Tname "inchi_Stereo0D"));
      ("num_atoms", AT_NUM); ("num_stereo0D", AT_NUM);
      ("szMessage", Tptr Tchar); ("szLog", Tptr Tchar);
      ("WarningFlags", Tarr (Tarr (Tint Unsigned ILong) (Lit 2)) (Lit 2)) ]
  ∧ f_name <$> last (s_fields tagINCHI_OutputStruct) = Some "WarningFlags"
  ∧ (∀ t, lookup_field tagINCHI_OutputStruct "WarningFlags" = Some t →
       dims defines t = [Some 2; Some 2]
       ∧ elem_type t = Tint Unsigned ILong).
Proof.
  split_and!; try reflexivity.
  intros t Ht. by inversion Ht.
Qed.

(** ** Calls *)

Section call_facts.
Import Call.
Context {obj : Type}.
Implicit Types (p : prototype) (f : callee (obj := obj)) (args : list obj).

Lemma write_back_lookup p (old new : list obj) i :
  write_back p old new !! i =
    (λ o, match fn_params p !! i, new !! i with
          | Some prm, Some o' =>
              match param_access (p_type prm) with
              | ReadWrite => o'
              | _ => o
              end
          | _, _ => o
          end) <$> old !! i.
Proof. unfold write_back. by rewrite list_lookup_imap. Qed.

Lemma call_ret p f args : (call p f args).1 = (f args).1.
Proof. unfold call. by destruct (f args). Qed.

Lemma call_length p f args : length (call p f args).2 = length args.
Proof. unfold call. destruct (f args). apply length_imap. Qed.

(** What the callee leaves behind a pointer to a non-[const] type is what
    the caller finds there. *)
Lemma call_stores p f args i prm o' :
  fn_params p !! i = Some prm →
  param_access (p_type prm) = ReadWrite →
  is_Some (args !! i) →
  (f args).2 !! i = Some o' →
  (call p f args).2 !! i = Some o'.
Proof.
  intros Hprm Hacc [o Ho] Hout. unfold call.
  destruct (f args) as [r out]. cbn in *.
  by rewrite write_back_lookup, Hprm, Ho, Hout, Hacc.
Qed.

End call_facts.


(** * Further properties of the header *)

(** ** Scoping *)

Section scoping.
Import Scope.

(** The pass accepts a list of declarations only if each name a
    declaration uses was known at the start or is introduced above it. *)
Lemma well_scoped_sound names macros ds :
  well_scoped names macros ds = true →
  ∀ (j : nat) d, ds !! j = Some d →
    (∀ n, n ∈ uses_names d →
       n ∈ names
       ∨ ∃ (i : nat) d', (i < j)%nat ∧ ds !! i = Some d'
                         ∧ n ∈ declares_names d')
    ∧ (∀ m, m ∈ uses_macros d →
         m ∈ macros
         ∨ ∃ (i : nat) d', (i < j)%nat ∧ ds !! i = Some d'
                           ∧ m ∈ declares_macros d').
Proof.
  revert names macros.
  induction ds as [|d0 ds IH]; intros names macros Hok j d Hj; [done |].
  cbn in Hok. apply andb_true_iff in Hok as [Hok Hrest].
  apply andb_true_iff in Hok as [Hn Hm].
  destruct j as [|j]; cbn in Hj.
  - inversion Hj; subst d0; clear Hj. split.
    + intros n Hin. left.
      rewrite forallb_forall in Hn. apply list_elem_of_In, Hn in Hin.
      by apply bool_decide_eq_true in Hin.
    + intros m Hin. left.
      rewrite forallb_forall in Hm. apply list_elem_of_In, Hm in Hin.
      by apply bool_decide_eq_true in Hin.
  - destruct (IH _ _ Hrest j d Hj) as [Hnames Hmacros]. split.
    + intros n Hin. destruct (Hnames n Hin) as [Hold | (i & d' & Hi & Hd' & Hdecl)].
      * apply elem_of_app in Hold as [Hnew | Hold]; [| by left].
        right. exists 0%nat, d0. split_and!; [lia | done | done].
      * right. exists (S i), d'. split_and!; [lia | done | done].
    + intros m Hin. destruct (Hmacros m Hin) as [Hold | (i & d' & Hi & Hd' & Hdecl)].
      * apply elem_of_app in Hold as [Hnew | Hold]; [| by left].
        right. exists 0%nat, d0. split_and!; [lia | done | done].
      * right. exists (S i), d'. split_and!; [lia | done | done].
Qed.

Lemma header_well_scoped : well_scoped [] [] header = true.
Proof. vm_compute. reflexivity. Qed.

End scoping.

(** X1: the header is self-contained.  Every type name written in a
    declaration (in the type of a member, of a parameter or of a result)
    is introduced by a declaration above it, and so is every macro
    written in an array bound. *)
Theorem header_declared_before_use (j : nat) (d : Scope.decl) :
  Scope.header !! j = Some d →
  (∀ n, n ∈ Scope.uses_names d →
     ∃ (i : nat) d', (i < j)%nat ∧ Scope.header !! i = Some d'
                     ∧ n ∈ Scope.declares_names d')
  ∧ (∀ m, m ∈ Scope.uses_macros d →
       ∃ (i : nat) d', (i < j)%nat ∧ Scope.header !! i = Some d'
                       ∧ m ∈ Scope.declares_macros d').
Proof.
  intros Hj.
  destruct (well_scoped_sound [] [] _ header_well_scoped j d Hj) as [Hn Hm].
  split.
  - intros n Hin. destruct (Hn n Hin) as [Hnil | H]; [| exact H].
    by apply elem_of_nil in Hnil.
  - intros m Hin. destruct (Hm m Hin) as [Hnil | H]; [| exact H].
    by apply elem_of_nil in Hnil.
Qed.

(** The atom structure is declaration number 46; it uses the aliases
    [AT_NUM] and [S_CHAR] and the macros [ATOM_EL_LEN] and
    [NUM_H_ISOTOPES]. *)
Lemma header_declared_before_use_witness :
  Scope.header !! 46%nat = Some (Scope.DStruct tagInchiAtom)
  ∧ (∀ n, n ∈ Scope.uses_names (Scope.DStruct tagInchiAtom) →
       ∃ (i : nat) d', (i < 46)%nat ∧ Scope.header !! i = Some d'
                       ∧ n ∈ Scope.declares_names d')
  ∧ (∀ m, m ∈ Scope.uses_macros (Scope.DStruct tagInchiAtom) →
       ∃ (i : nat) d', (i < 46)%nat ∧ Scope.header !! i = Some d'
                       ∧ m ∈ Scope.declares_macros d').
Proof.
  split; [reflexivity |].
  apply (header_declared_before_use 46 (Scope.DStruct tagInchiAtom)).
  reflexivity.
Defined.

(** X2: every array bound of every structure member evaluates, under the
    macros of the header, to a positive number of entries. *)
Theorem array_bounds_positive :
  Forall (λ s,
      Forall (λ f,
          Forall (λ d, ∃ n, d = Some n ∧ 0 < n) (dims defines (f_type f)))
        (s_fields s))
    structs.
Proof.
  repeat (apply Forall_cons_2 || apply Forall_nil_2);
    cbn; eexists; (split; [reflexivity | done]).
Qed.

(** ** Preprocessing *)

Section preprocessing.
Import Cpp.

Lemma eval_cond_ext b1 b2 above c :
  (∀ n, n ∈ cond_names c → b1 n = b2 n) →
  eval_cond b1 above c = eval_cond b2 above c.
Proof.
  induction c as [n | a IHa b IHb | a IHa]; intros Hag; cbn.
  - rewrite (Hag n); [reflexivity | by apply list_elem_of_here].
  - rewrite IHa, IHb; [reflexivity | |];
      intros n Hn; apply Hag; cbn; apply elem_of_app; auto.
  - by rewrite IHa.
Qed.

(** The active lines depend on the macros defined before the file only
    through the names its conditionals ask about. *)
Lemma active_ext b1 b2 :
  ∀ l above, (∀ n, n ∈ reads l → b1 n = b2 n) →
             active b1 l above = active b2 l above.
Proof.
  fix IH 1. intros [n body | o | d | c th el] above Hag; try reflexivity.
  change (active_list b1 (if eval_cond b1 above c then th else el) above
          = active_list b2 (if eval_cond b2 above c then th else el) above).
  change (∀ n, n ∈ (cond_names c ++ reads_list th ++ reads_list el)%list →
               b1 n = b2 n) in Hag.
  rewrite (eval_cond_ext b1 b2 above c)
    by (intros n Hn; apply Hag, elem_of_app; by left).
  assert (Hth : (∀ n, n ∈ reads_list th → b1 n = b2 n) →
                ∀ above, active_list b1 th above = active_list b2 th above).
  { clear Hag. induction th as [|l1 rest IHrest]; intros Hr above1;
      [reflexivity |].
    cbn. rewrite (IH l1 above1)
      by (intros n Hn; apply Hr; cbn; apply elem_of_app; by left).
    rewrite IHrest; [reflexivity |].
    intros n Hn. apply Hr. cbn. apply elem_of_app. by right. }
  assert (Hel : (∀ n, n ∈ reads_list el → b1 n = b2 n) →
                ∀ above, active_list b1 el above = active_list b2 el above).
  { clear Hag Hth. induction el as [|l1 rest IHrest]; intros Hr above1;
      [reflexivity |].
    cbn. rewrite (IH l1 above1)
      by (intros n Hn; apply Hr; cbn; apply elem_of_app; by left).
    rewrite IHrest; [reflexivity |].
    intros n Hn. apply Hr. cbn. apply elem_of_app. by right. }
  destruct (eval_cond b2 above c).
  - apply Hth. intros n Hn. apply Hag. rewrite !elem_of_app. auto.
  - apply Hel. intros n Hn. apply Hag. rewrite !elem_of_app. auto.
Qed.

(** Reading the file with any macros defined before it is reading it
    with the six macros of [oracle] set as they are before it. *)
Lemma active_oracle before :
  active before inchi_api_h [] =
    active (oracle (before "__INCHI_API_H__") (before "__cplusplus")
              (before "_WIN32") (before "_USRDLL") (before "_WINDLL")
              (before "_INCHI_DLL_")) inchi_api_h [].
Proof.
  apply active_ext. intros n Hn.
  assert (Hreads : reads inchi_api_h =
            [ "__INCHI_API_H__"; "__cplusplus"; "_WIN32"; "_USRDLL";
              "_WINDLL"; "_INCHI_DLL_"; "__cplusplus" ])
    by (vm_compute; reflexivity).
  rewrite Hreads in Hn.
  repeat (apply elem_of_cons in Hn as [-> | Hn]; [reflexivity |]).
  by apply elem_of_nil in Hn.
Qed.

End preprocessing.


(** ** Integer ranges *)

Section ranges.
Import Abi.

Lemma signed_range_mono n m v :
  0 < n ≤ m →
  int_min Signed n ≤ v ≤ int_max Signed n →
  int_min Signed m ≤ v ≤ int_max Signed m.
Proof.
  unfold int_min, int_max. intros Hnm Hv.
  assert (2 ^ (n - 1) ≤ 2 ^ (m - 1)) by (apply Z.pow_le_mono_r; lia).
  lia.
Qed.

Lemma schar_representable w v :
  conforming w → -128 ≤ v ≤ 127 → representable w Signed IChar v.
Proof.
  intros Hw Hv. apply (signed_range_mono 8); [unfold conforming in Hw; cbn; lia |].
  unfold int_min, int_max. cbn. lia.
Qed.

Lemma short_representable w k v :
  conforming w → k ≠ IChar → -32768 ≤ v ≤ 32767 →
  representable w Signed k v.
Proof.
  intros Hw Hk Hv. apply (signed_range_mono 16).
  - unfold conforming in Hw. destruct k; cbn; [done | lia..].
  - unfold int_min, int_max. cbn. lia.
Qed.

End ranges.

(** Every value of a table of numerals satisfies [P], by going through
    the table. *)
Ltac table_Forall tac :=
  repeat (apply Forall_cons_2 || apply Forall_nil_2); tac.

(** X4: on every conforming implementation each code is representable
    where the header puts it: the bond-type codes in an entry of
    [bond_type], the bond-stereo codes in an entry of [bond_stereo], the
    parity and stereo-type codes in the members [parity] and [type] of
    the stereo descriptor, the return codes in the results of the
    functions that return them; every macro value is representable as an
    [int]. *)
Theorem codes_representable (w : Abi.widths) :
  Abi.conforming w →
  Forall (Abi.member_holds w tagInchiAtom "bond_type") (values bond_types)
  ∧ Forall (Abi.member_holds w tagInchiAtom "bond_stereo")
      (values bond_stereos)
  ∧ Forall (Abi.member_holds w tagINCHIStereo0D "parity") (values parities)
  ∧ Forall (Abi.member_holds w tagINCHIStereo0D "type") (values stereo_types)
  ∧ Forall (Abi.holds w (fn_ret GetINCHI)) (values return_codes)
  ∧ Forall (Abi.holds w (fn_ret GetStructFromINCHI)) (values return_codes)
  ∧ Forall (Abi.holds w (fn_ret GetINCHIKeyFromINCHI))
      (values inchikey_return_codes)
  ∧ Forall (Abi.representable w Signed IInt) (values defines).
Proof.
  intros Hw. split_and!.
  - table_Forall ltac:(by apply short_representable).
  - table_Forall ltac:(by apply schar_representable).
  - table_Forall ltac:(by apply schar_representable).
  - table_Forall ltac:(by apply schar_representable).
  - table_Forall ltac:(by apply short_representable).
  - table_Forall ltac:(by apply short_representable).
  - table_Forall ltac:(by apply short_representable).
  - table_Forall ltac:(by apply short_representable).
Qed.

Lemma codes_representable_witness :
  Abi.conforming Abi.lp64
  ∧ Forall (Abi.member_holds Abi.lp64 tagInchiAtom "bond_type")
      (values bond_types)
  ∧ Forall (Abi.representable Abi.lp64 Signed IInt) (values defines).
Proof.
  assert (Hw : Abi.conforming Abi.lp64) by (unfold Abi.conforming; cbn; lia).
  split; [exact Hw |].
  destruct (codes_representable Abi.lp64 Hw) as (H1 & _ & _ & _ & _ & _ & _ & H8).
  split; [exact H1 | exact H8].
Defined.

(** X5: with 8-bit characters the member [isotopic_mass], a signed
    character, holds every shift from [-ISOTOPIC_SHIFT_MAX] to
    [ISOTOPIC_SHIFT_MAX], but neither [ISOTOPIC_SHIFT_FLAG] nor the sum
    of [ISOTOPIC_SHIFT_FLAG] and such a shift. *)
Theorem isotopic_mass_range (w : Abi.widths) :
  Abi.char_bits w = 8 →
  ¬ Abi.member_holds w tagInchiAtom "isotopic_mass" ISOTOPIC_SHIFT_FLAG
  ∧ ∀ d, - ISOTOPIC_SHIFT_MAX ≤ d ≤ ISOTOPIC_SHIFT_MAX →
      Abi.member_holds w tagInchiAtom "isotopic_mass" d
      ∧ ¬ Abi.member_holds w tagInchiAtom "isotopic_mass"
            (ISOTOPIC_SHIFT_FLAG + d).
Proof.
  intros Hc.
  assert (Hiff : ∀ v, Abi.member_holds w tagInchiAtom "isotopic_mass" v
                      ↔ -128 ≤ v ≤ 127).
  { intros v. destruct w as [c s i l]. cbn in Hc. subst c.
    change (Abi.representable (Abi.Widths 8 s i l) Signed IChar v
            ↔ -128 ≤ v ≤ 127).
    unfold Abi.representable. cbn. lia. }
  unfold ISOTOPIC_SHIFT_FLAG, ISOTOPIC_SHIFT_MAX. split.
  - rewrite Hiff. lia.
  - intros d Hd. rewrite !Hiff. lia.
Qed.

Lemma isotopic_mass_range_witness :
  Abi.char_bits Abi.lp64 = 8
  ∧ ¬ Abi.member_holds Abi.lp64 tagInchiAtom "isotopic_mass"
        ISOTOPIC_SHIFT_FLAG.
Proof.
  split; [reflexivity |].
  exact (proj1 (isotopic_mass_range Abi.lp64 eq_refl)).
Defined.

(** ** Functions *)

(** Case analysis on membership in a table given by enumeration. *)
Ltac table_cases H :=
  repeat (apply elem_of_cons in H as [-> | H]); [.. | by apply elem_of_nil in H].

(** X6: a function of the header that returns a status and has a
    parameter [out] has exactly one release function: a function of the
    header that returns nothing and whose only parameter is declared as
    that [out] parameter is. *)
Theorem out_has_one_release (p : prototype) (prm : param) :
  p ∈ prototypes →
  fn_ret p = Tint Signed IInt →
  Scope.out_param p = Some prm →
  ∃ q, q ∈ prototypes ∧ fn_ret q = Tvoid ∧ fn_params q = [prm]
       ∧ ∀ q', q' ∈ prototypes → fn_ret q' = Tvoid →
               fn_params q' = [prm] → q' = q.
Proof.
  intros Hp Hret Hout. table_cases Hp; try discriminate.
  - exists FreeINCHI. inversion Hout; subst prm.
    split_and!; [compute_done | done | done |].
    intros q' Hq' Hv Hprm. table_cases Hq'; done.
  - exists FreeStructFromINCHI. inversion Hout; subst prm.
    split_and!; [compute_done | done | done |].
    intros q' Hq' Hv Hprm. table_cases Hq'; done.
Qed.

Lemma out_has_one_release_witness :
  ∃ q, q ∈ prototypes ∧ fn_ret q = Tvoid
       ∧ fn_params q = [Param (Tptr (Tname "inchi_Output")) "out"]
       ∧ ∀ q', q' ∈ prototypes → fn_ret q' = Tvoid →
               fn_params q' = [Param (Tptr (Tname "inchi_Output")) "out"] →
               q' = q.
Proof.
  apply (out_has_one_release GetINCHI).
  - apply (bool_decide_unpack _). vm_compute. exact I.
  - reflexivity.
  - reflexivity.
Defined.

(** X7: outside [GetINCHIKeyFromINCHI] the header declares no parameter
    [const]: every parameter of the other functions is a pointer through
    which the callee can write.  So what a callee of [GetINCHI] or
    [GetStructFromINCHI] stores in its input structure, not only in its
    output structure, is what the caller finds there. *)
Theorem inputs_are_writable :
  Forall (λ p,
      p = GetINCHIKeyFromINCHI
      ∨ Forall (λ prm, Call.param_access (p_type prm) = Call.ReadWrite)
          (fn_params p))
    prototypes
  ∧ Call.writable GetINCHI = ["inp"; "out"]
  ∧ Call.writable GetStructFromINCHI = ["inp"; "out"]
  ∧ ∀ (obj : Type) (f : Call.callee (obj := obj)) (args : list obj)
      (p : prototype) (i : nat) (o' : obj),
      p ∈ [GetINCHI; GetStructFromINCHI] →
      is_Some (args !! i) → (i < 2)%nat →
      (f args).2 !! i = Some o' →
      (Call.call p f args).2 !! i = Some o'.
Proof.
  split_and!; try reflexivity.
  - table_Forall ltac:(first [by left | right; table_Forall ltac:(reflexivity)]).
  - intros obj f args p i o' Hp Hargs Hi Hout.
    assert (i = 0 ∨ i = 1)%nat as Hcase by lia.
    table_cases Hp; destruct Hcase as [-> | ->]; by eapply call_stores.
Qed.

(** X8: of the six integer aliases the declarations of the header use
    two, [AT_NUM] and [S_CHAR]; [NUM_H], [U_CHAR], [S_SHORT] and
    [U_SHORT] are declared and used nowhere.  Of the macros, the array
    bounds use [ATOM_EL_LEN] and [NUM_H_ISOTOPES] and no other. *)
Theorem used_names :
  (∀ n, n ∈ Scope.header ≫= Scope.uses_names ↔
          n ∈ [ "AT_NUM"; "S_CHAR"; "inchi_Atom"; "inchi_Stereo0D";
                "inchi_Input"; "inchi_Output"; "inchi_InputINCHI";
                "inchi_OutputStruct" ])
  ∧ (∀ m, m ∈ Scope.header ≫= Scope.uses_macros ↔
            m ∈ [ "ATOM_EL_LEN"; "NUM_H_ISOTOPES" ])
  ∧ Forall (λ n, n ∉ Scope.header ≫= Scope.uses_names)
      [ "NUM_H"; "U_CHAR"; "S_SHORT"; "U_SHORT" ].
Proof.
  split_and!.
  - intros n. rewrite <- elem_of_remove_dups.
    replace (remove_dups (Scope.header ≫= Scope.uses_names))
      with [ "S_CHAR"; "inchi_Atom"; "inchi_Stereo0D"; "AT_NUM";
             "inchi_Input"; "inchi_Output"; "inchi_InputINCHI";
             "inchi_OutputStruct" ] by (vm_compute; reflexivity).
    split; intros Hn; table_cases Hn; compute_done.
  - intros m. rewrite <- elem_of_remove_dups.
    by replace (remove_dups (Scope.header ≫= Scope.uses_macros))
      with [ "ATOM_EL_LEN"; "NUM_H_ISOTOPES" ] by (vm_compute; reflexivity).
  - apply (bool_decide_unpack _). vm_compute. exact I.
Qed.
